(** * Hearthstone ELO matching system: a model of [main.go]

    The development embeds the matchmaking core of [main.go]: the hero
    table behind [getCurHeroPt] / [updateCurHeroPt], the compatibility
    test [eloMatch], the rating update [computeK] / [eloCal], the match
    resolution [gameRoom], and one iteration of the [startMatching] loop.

    Conventions.
    - Go's [int] is the 64-bit two's-complement integer: a [Z] kept in
      range by [Int.wrap] after every arithmetic operation.
    - Go's [float64] is IEEE 754 binary64: Rocq's primitive [float], whose
      operations are the same correctly rounded ones.
    - The [heroes] table is a finite map from primary key to row.  GORM
      parses the schema of [Hero] before it runs a query on it; the outcome
      of that, read off the struct tags, decides between the query and the
      error return, which the program ignores.
    - Standard output is the list of lines printed.
    - A goroutine started with [go] is recorded as a pending call; the mutex
      makes one loop iteration atomic with respect to the queue, which is
      how a cycle is modelled (a function of the database it reads). *)

From Stdlib Require Import ZArith Floats Lia.
From stdpp Require Import gmap list strings.

Open Scope Z_scope.

(** ** Go's [int] *)

Module Int.

Definition min_int : Z := - 2 ^ 63.
Definition max_int : Z := 2 ^ 63 - 1.

(** Reduction of a mathematical integer to the 64-bit signed range. *)
Definition wrap (z : Z) : Z := (z + 2 ^ 63) mod 2 ^ 64 - 2 ^ 63.

Definition in_range (z : Z) : bool := (min_int <=? z) && (z <=? max_int).

Definition add (x y : Z) : Z := wrap (x + y).
Definition sub (x y : Z) : Z := wrap (x - y).
Definition neg (x : Z) : Z := wrap (- x).

End Int.

(** ** The parts of the Go implementation the program leaves open *)

(** Two things are not fixed by [main.go] or by the language:
    - [math.Pow] outside the special cases its documentation lists;
    - the result of converting to [int] a [float64] that [int] cannot
      represent (NaN, the infinities, magnitudes from 2^63 on), which the
      language specification calls implementation-dependent. *)
Class GoPlatform : Type := {
  pow_general : float -> float -> float;
  int_of_float_unrepresentable : float -> Z
}.

Module Float64.

(** [float64(z)]: the integer rounded to the nearest binary64 value, ties
    to even. *)
Definition of_int (z : Z) : float :=
  SF2Prim (binary_normalize prec emax z 0 false).

(** The integer part of a finite value, rounding toward zero. *)
Definition truncate (f : float) : option Z :=
  match Prim2SF f with
  | S754_zero _ => Some 0
  | S754_finite s m e =>
      let mag := if 0 <=? e then Z.pos m * 2 ^ e else Z.pos m / 2 ^ (- e) in
      Some (if s then - mag else mag)
  | S754_infinity _ | S754_nan => None
  end.

(** [int(f)]: truncation toward zero when the result fits. *)
Definition to_int `{GoPlatform} (f : float) : Z :=
  match truncate f with
  | Some z =>
      if Int.in_range z then z else Int.wrap (int_of_float_unrepresentable f)
  | None => Int.wrap (int_of_float_unrepresentable f)
  end.

(** [math.Pow(x, y)].  The first two cases of the library's switch are its
    documented special cases [Pow(x, ±0) = 1], [Pow(1, y) = 1] and
    [Pow(x, 1) = x]; everything else is the platform's. *)
Definition Pow `{GoPlatform} (x y : float) : float :=
  if (y =? 0)%float || (x =? 1)%float then 1%float
  else if (y =? 1)%float then x
  else pow_general x y.

End Float64.

(** ** Constants *)

Definition ELO_RESULT_WIN : Z := 1.
Definition ELO_RESULT_LOSS : Z := -1.
Definition ELO_RESULT_TIE : Z := 0.
Definition ELO_RATING_DEFAULT : Z := 1500.
Definition DECREASE_RATE : Z := 20.

(** ** Structs *)

Record Card : Type := mkCard {
  Card_ID : Z;
  Card_Name : string
}.

Record Deck : Type := mkDeck {
  Deck_ID : Z;
  Deck_Name : string;
  Deck_Cards : list Card;
  Deck_CurWin : Z;
  Deck_CurLose : Z;
  Deck_CurWinRate : float
}.

Record Hero : Type := mkHero {
  Hero_ID : Z;
  Hero_UserID : Z;
  Hero_Name : string;
  Hero_IsUnlocked : bool;
  Hero_Level : Z;
  Hero_CurWin : Z;
  Hero_CurLose : Z;
  Hero_CurWinRate : float;
  Hero_CurPt : Z;
  Hero_Decks : list Deck
}.

Record User : Type := mkUser {
  User_ID : Z;
  User_IsOnline : bool;
  User_Name : string;
  User_CurHeroID : Z;
  User_AllowedDiff : Z;
  User_HeroList : list Hero
}.

(** The mutex [mu] guards [MatchingQueue]; it has no state of its own in a
    model where a cycle is atomic. *)
Record MatchingPool : Type := mkPool {
  minPt : Z;
  maxPt : Z;
  MatchingQueue : list User
}.

(** The zero value of [Hero], what [var hero Hero] declares. *)
Definition Hero_zero : Hero :=
  {| Hero_ID := 0; Hero_UserID := 0; Hero_Name := ""; Hero_IsUnlocked := false;
     Hero_Level := 0; Hero_CurWin := 0; Hero_CurLose := 0;
     Hero_CurWinRate := 0%float; Hero_CurPt := 0; Hero_Decks := [] |}.

Definition Hero_set_CurPt (hero : Hero) (newPt : Z) : Hero :=
  {| Hero_ID := Hero_ID hero; Hero_UserID := Hero_UserID hero;
     Hero_Name := Hero_Name hero; Hero_IsUnlocked := Hero_IsUnlocked hero;
     Hero_Level := Hero_Level hero; Hero_CurWin := Hero_CurWin hero;
     Hero_CurLose := Hero_CurLose hero; Hero_CurWinRate := Hero_CurWinRate hero;
     Hero_CurPt := newPt; Hero_Decks := Hero_Decks hero |}.

Definition User_set_AllowedDiff (user : User) (d : Z) : User :=
  {| User_ID := User_ID user; User_IsOnline := User_IsOnline user;
     User_Name := User_Name user; User_CurHeroID := User_CurHeroID user;
     User_AllowedDiff := d; User_HeroList := User_HeroList user |}.

Definition Pool_set_queue (pool : MatchingPool) (q : list User) : MatchingPool :=
  {| minPt := minPt pool; maxPt := maxPt pool; MatchingQueue := q |}.

(** ** The hero table *)

(** The [heroes] table: rows by primary key. *)
Abbreviation DB := (gmap Z Hero).

(** Every row is stored under its own [ID], as a primary key is. *)
Definition db_wf (db : DB) : Prop :=
  forall k hero, db !! k = Some hero -> Hero_ID hero = k.

(** *** The schema of [Hero]

    The field names of the two structs, and the tag of [Hero.Decks],
    [gorm:"foreignKey:HeroID"]. *)
Definition Deck_fields : list string :=
  [ "ID"; "Name"; "Cards"; "CurWin"; "CurLose"; "CurWinRate" ]%string.

Definition Hero_fields : list string :=
  [ "ID"; "UserID"; "Name"; "IsUnlocked"; "Level"; "CurWin"; "CurLose";
    "CurWinRate"; "CurPt"; "Decks" ]%string.

Definition Hero_Decks_foreignKey : string := "HeroID".

(** GORM resolves the relation behind [Decks []Deck] by looking the foreign
    key up among the fields of [Deck] (a has-many) and, failing that, among
    those of [Hero] (a belongs-to).  When neither has it the schema of
    [Hero] is in error, and so is every statement built on it. *)
Definition Hero_schema_valid : bool :=
  bool_decide (Hero_Decks_foreignKey ∈ Deck_fields) ||
  bool_decide (Hero_Decks_foreignKey ∈ Hero_fields).

(** [db.First(&hero, id)]: with a valid schema the row whose primary key is
    [id] is copied into [hero], and [hero] keeps its zero value when there is
    none; with a schema in error no query is run and [hero] keeps its zero
    value.  The error returned is dropped by the callers. *)
Definition First (db : DB) (id : Z) : Hero :=
  if Hero_schema_valid then
    match db !! id with
    | Some hero => hero
    | None => Hero_zero
    end
  else Hero_zero.

(** [db.Save(&hero)] for a [hero] with a non-zero primary key: with a valid
    schema every column of the row with that key is written; with a schema
    in error nothing is. *)
Definition Save (db : DB) (hero : Hero) : DB :=
  if Hero_schema_valid then <[Hero_ID hero := hero]> db else db.

(** [initMatchingPools] *)
Definition initMatchingPools : list MatchingPool :=
  [ {| minPt := 1000; maxPt := 1200; MatchingQueue := [] |};
    {| minPt := 1201; maxPt := 1400; MatchingQueue := [] |};
    {| minPt := 1401; maxPt := 1600; MatchingQueue := [] |} ].

(** [(user *User) getCurHeroPt] *)
Definition getCurHeroPt (db : DB) (user : User) : Z :=
  let hero := First db (User_CurHeroID user) in
  if 0 <? Hero_ID hero then Hero_CurPt hero
  else ELO_RATING_DEFAULT.

(** [(user *User) updateCurHeroPt] *)
Definition updateCurHeroPt (db : DB) (user : User) (newPt : Z) : DB :=
  let hero := First db (User_CurHeroID user) in
  if 0 <? Hero_ID hero then Save db (Hero_set_CurPt hero newPt)
  else db.

(** [addUserToPoll]: the caller's user has its tolerance reset, and a copy
    of it is appended to the queue. *)
Definition addUserToPoll (curUser : User) (pool : MatchingPool) : User * MatchingPool :=
  let curUser := User_set_AllowedDiff curUser 0 in
  (curUser, Pool_set_queue pool (MatchingQueue pool ++ [curUser])).

(** [abs] *)
Definition abs (x : Z) : Z :=
  if x <? 0 then Int.neg x else x.

(** [(curUser *User) eloMatch] *)
Definition eloMatch (db : DB) (curUser matchingUser : User) (allowedDiff : Z) : bool :=
  let eloDiff := abs (Int.sub (getCurHeroPt db curUser) (getCurHeroPt db matchingUser)) in
  eloDiff <=? allowedDiff.

(** [(curUser *User) computeK] *)
Definition computeK (db : DB) (curUser : User) : float :=
  let elo := getCurHeroPt db curUser in
  if 2400 <=? elo then 16%float
  else if 2100 <=? elo then 24%float
  else 36%float.

(** The [switch] of [eloCal]: the score of a known result. *)
Definition actualScore_of (result : Z) : option float :=
  if result =? ELO_RESULT_WIN then Some 1%float
  else if result =? ELO_RESULT_TIE then Some 0.5%float
  else if result =? ELO_RESULT_LOSS then Some 0%float
  else None.

(** [(curUser *User) eloCal]: the database after the call and the lines it
    printed.  Each floating-point operation is rounded on its own, as the
    compiler emits them where it does not fuse a multiplication with an
    addition. *)
Definition eloCal `{GoPlatform} (db : DB) (curUser : User) (opponentPt result : Z)
  : DB * list string :=
  let K := computeK db curUser in
  let expectedScore :=
    (1 / (1 + Float64.Pow 10
                (Float64.of_int (Int.sub opponentPt (getCurHeroPt db curUser)) / 400)))%float in
  match actualScore_of result with
  | Some actualScore =>
      let newPt :=
        (Float64.of_int (getCurHeroPt db curUser) + K * (actualScore - expectedScore))%float in
      (updateCurHeroPt db curUser (Float64.to_int newPt), [])
  | None => (db, ["Invalid result"%string])
  end.

(** One call of [eloCal], as [gameRoom] makes it. *)
Record EloCall : Type := mkEloCall {
  call_user : User;
  call_opponentPt : Z;
  call_result : Z
}.

(** What a run of [gameRoom] leaves behind: the database, the lines printed
    and, in order, the calls of [eloCal] it made. *)
Record Room : Type := mkRoom {
  room_db : DB;
  room_stdout : list string;
  room_calls : list EloCall
}.

(** [gameRoom]: the argument of each call is evaluated when the call is
    made, the second one after the first call has returned. *)
Definition gameRoom `{GoPlatform} (db : DB) (user1 user2 : User) : Room :=
  let opponentPt1 := getCurHeroPt db user2 in
  let '(db1, out1) := eloCal db user1 opponentPt1 ELO_RESULT_WIN in
  let opponentPt2 := getCurHeroPt db1 user1 in
  let '(db2, out2) := eloCal db1 user2 opponentPt2 ELO_RESULT_LOSS in
  {| room_db := db2;
     room_stdout := out1 ++ out2;
     room_calls := [ mkEloCall user1 opponentPt1 ELO_RESULT_WIN;
                     mkEloCall user2 opponentPt2 ELO_RESULT_LOSS ] |}.

(** ** The matching loop *)

(** The [for index, matchedUser := range curQueue] loop of [startMatching],
    with [rest] the elements not yet visited and [index] the position of the
    first of them.  It returns the value of [curQueue] after the loop and the
    pair handed to [go gameRoom], if any. *)
Fixpoint rangeLoop (db : DB) (firstUser : User) (curQueue rest : list User) (index : nat)
  : list User * option (User * User) :=
  match rest with
  | [] => (curQueue, None)
  | matchedUser :: rest' =>
      if eloMatch db firstUser matchedUser (User_AllowedDiff firstUser)
      then (take index curQueue ++ drop (S index) curQueue, Some (firstUser, matchedUser))
      else rangeLoop db firstUser curQueue rest' (S index)
  end.

(** The tolerance step [int(28800.0 / float64(pt))]. *)
Definition allowedDiffStep `{GoPlatform} (pt : Z) : Z :=
  Float64.to_int (28800 / Float64.of_int pt)%float.

(** What one iteration of the loop produces: the pool as written back, the
    goroutine started, and the final value of the local variable
    [firstUser] (none when the body of the [if] did not run). *)
Record Cycle : Type := mkCycle {
  cycle_pool : MatchingPool;
  cycle_go : option (User * User);
  cycle_firstUser : option User
}.

(** One iteration of the [for] loop of [(curPool *MatchingPool) startMatching],
    between [Lock] and [Unlock]. *)
Definition startMatching_cycle `{GoPlatform} (db : DB) (curPool : MatchingPool) : Cycle :=
  let curQueue := MatchingQueue curPool in
  let idle :=
    {| cycle_pool := Pool_set_queue curPool curQueue;
       cycle_go := None;
       cycle_firstUser := None |} in
  if (2 <=? length curQueue)%nat then
    match curQueue with
    | firstUser :: curQueue1 =>
        let '(curQueue2, started) := rangeLoop db firstUser curQueue1 curQueue1 0 in
        let firstUser' :=
          User_set_AllowedDiff firstUser
            (Int.add (User_AllowedDiff firstUser)
                     (allowedDiffStep (getCurHeroPt db firstUser))) in
        {| cycle_pool := Pool_set_queue curPool curQueue2;
           cycle_go := started;
           cycle_firstUser := Some firstUser' |}
    | [] => idle (* not reached: the queue has two elements *)
    end
  else idle.

(** [n] iterations of [startMatching] over a database that no goroutine
    writes to in the meantime: the pool after them and the goroutines
    started, oldest first. *)
Fixpoint startMatching `{GoPlatform} (n : nat) (db : DB) (curPool : MatchingPool)
  : MatchingPool * list (User * User) :=
  match n with
  | O => (curPool, [])
  | S n' =>
      let c := startMatching_cycle db curPool in
      let '(pool', started) := startMatching n' db (cycle_pool c) in
      (pool', option_list (cycle_go c) ++ started)
  end.

(** The arithmetic of [eloCal] as a function of what it reads: the caller's
    rating [selfPt], the opponent's and the score. *)
Definition newRating `{GoPlatform} (selfPt opponentPt : Z) (actualScore : float) : Z :=
  let K := if 2400 <=? selfPt then 16%float
           else if 2100 <=? selfPt then 24%float
           else 36%float in
  let expectedScore :=
    (1 / (1 + Float64.Pow 10 (Float64.of_int (Int.sub opponentPt selfPt) / 400)))%float in
  Float64.to_int (Float64.of_int selfPt + K * (actualScore - expectedScore))%float.

(** ** Vocabulary of the properties *)

(** The candidate's rating is within the probe's tolerance of the probe's
    rating, as numbers. *)
Definition within_tolerance (db : DB) (probe candidate : User) : Prop :=
  Z.abs (getCurHeroPt db probe - getCurHeroPt db candidate) <= User_AllowedDiff probe.

(** A rating far enough from the ends of [int] for a difference of two such
    ratings not to overflow. *)
Definition rating_bounded (db : DB) (user : User) : Prop :=
  - 2 ^ 62 <= getCurHeroPt db user < 2 ^ 62.

(** The table stores rating [pt] for the user's current hero: there is a
    row under that key, it carries the key as its [ID], a positive one, and
    its [CurPt] is [pt]. *)
Definition stored_rating (db : DB) (user : User) (pt : Z) : Prop :=
  exists hero,
    db !! User_CurHeroID user = Some hero /\
    Hero_ID hero = User_CurHeroID user /\
    0 < Hero_ID hero /\
    Hero_CurPt hero = pt.

(** [f] holds of every integer from [base] up to [base + 2 ^ bits - 1]. *)
Fixpoint all_range (f : Z -> bool) (bits : nat) (base : Z) : bool :=
  match bits with
  | O => f base
  | S k => all_range f k base && all_range f k (base + 2 ^ Z.of_nat k)
  end.

(** ** Sample data *)

(** A platform for the examples: [math.Pow] answers 1 out of its special
    cases too, and an unrepresentable conversion gives the least [int], as
    the conversion instruction of amd64 does. *)
Definition sample_platform : GoPlatform :=
  {| pow_general := fun _ _ => 1%float;
     int_of_float_unrepresentable := fun _ => Int.min_int |}.

Definition sample_hero (id pt : Z) : Hero :=
  {| Hero_ID := id; Hero_UserID := id; Hero_Name := "Mage"; Hero_IsUnlocked := true;
     Hero_Level := 1; Hero_CurWin := 0; Hero_CurLose := 0;
     Hero_CurWinRate := 0%float; Hero_CurPt := pt; Hero_Decks := [] |}.

(** A user playing the hero whose primary key is the user's own. *)
Definition sample_user (id : Z) : User :=
  {| User_ID := id; User_IsOnline := true; User_Name := "Player";
     User_CurHeroID := id; User_AllowedDiff := 0; User_HeroList := [] |}.

(** A table with one hero for each of the ratings, keyed 1, 2, ... *)
Fixpoint sample_db_from (id : Z) (pts : list Z) : DB :=
  match pts with
  | [] => ∅
  | pt :: pts' => <[id := sample_hero id pt]> (sample_db_from (id + 1) pts')
  end.

Definition sample_db (pts : list Z) : DB := sample_db_from 1 pts.

Definition sample_pool (ids : list Z) : MatchingPool :=
  {| minPt := 1401; maxPt := 1600; MatchingQueue := sample_user <$> ids |}.

(** ** The rest of [main.go] *)

(** [createDefaultHeroes]: the ten heroes a new user gets.  Their [ID] is
    left zero, for the database to assign. *)
Definition createDefaultHeroes (userID : Z) : list Hero :=
  [ mkHero 0 userID "Druid" false 1 0 0 0%float ELO_RATING_DEFAULT [];
    mkHero 0 userID "Hunter" false 1 0 0 0%float ELO_RATING_DEFAULT [];
    mkHero 0 userID "Mage" false 1 0 0 0%float ELO_RATING_DEFAULT [];
    mkHero 0 userID "Paladin" false 1 0 0 0%float ELO_RATING_DEFAULT [];
    mkHero 0 userID "Priest" false 1 0 0 0%float ELO_RATING_DEFAULT [];
    mkHero 0 userID "Rogue" false 1 0 0 0%float ELO_RATING_DEFAULT [];
    mkHero 0 userID "Shaman" false 1 0 0 0%float ELO_RATING_DEFAULT [];
    mkHero 0 userID "Warlock" false 1 0 0 0%float ELO_RATING_DEFAULT [];
    mkHero 0 userID "Warrior" false 1 0 0 0%float ELO_RATING_DEFAULT [];
    mkHero 0 userID "Demon Hunter" false 1 0 0 0%float ELO_RATING_DEFAULT [] ].

(** ** More vocabulary *)

(** The rating lies in the band of the pool. *)
Definition in_band (pool : MatchingPool) (r : Z) : bool :=
  (minPt pool <=? r) && (r <=? maxPt pool).

(** [db'] has the rows of [db], under the same keys, with every column but
    [CurPt] as it was. *)
Definition only_CurPt_changed (db db' : DB) : Prop :=
  forall k,
    option_Forall2 (fun hero hero' => exists pt, hero' = Hero_set_CurPt hero pt)
                   (db !! k) (db' !! k).

(** The pools the program can hold: [MatchingQueue] is written by
    [initMatchingPools], by [addUserToPoll] and by [startMatching], and by
    nothing else. *)
Inductive pool_reachable `{GoPlatform} : MatchingPool -> Prop :=
  | reachable_init (pool : MatchingPool) :
      pool ∈ initMatchingPools -> pool_reachable pool
  | reachable_add (pool : MatchingPool) (curUser : User) :
      pool_reachable pool -> pool_reachable (addUserToPoll curUser pool).2
  | reachable_cycle (pool : MatchingPool) (db : DB) :
      pool_reachable pool -> pool_reachable (cycle_pool (startMatching_cycle db pool)).

(** The functions of the program are unfolded where a proof asks for it. *)
Arguments First : simpl never.
Arguments Save : simpl never.
Arguments getCurHeroPt : simpl never.
Arguments updateCurHeroPt : simpl never.
Arguments eloMatch : simpl never.
Arguments computeK : simpl never.

(** * Properties *)

(** ** Integers *)

Module IntFacts.

Lemma wrap_range (z : Z) : Int.min_int <= Int.wrap z <= Int.max_int.
Proof.
  unfold Int.wrap, Int.min_int, Int.max_int.
  pose proof (Z.mod_pos_bound (z + 2 ^ 63) (2 ^ 64)). lia.
Qed.

Lemma wrap_id (z : Z) : Int.min_int <= z <= Int.max_int -> Int.wrap z = z.
Proof.
  unfold Int.wrap, Int.min_int, Int.max_int. intros Hz.
  rewrite Z.mod_small; lia.
Qed.

(** Negation commutes with reduction to 64 bits. *)
Lemma wrap_opp (z : Z) : Int.wrap (- Int.wrap z) = Int.wrap (- z).
Proof.
  unfold Int.wrap.
  change (2 ^ 63) with 9223372036854775808.
  change (2 ^ 64) with 18446744073709551616.
  Z.div_mod_to_equations. lia.
Qed.

(** [abs] does not see the sign of what it is given, overflow included. *)
Lemma abs_neg (z : Z) : abs (Int.neg (Int.wrap z)) = abs (Int.wrap z).
Proof.
  unfold abs, Int.neg.
  pose proof (wrap_range z) as Hr.
  unfold Int.min_int, Int.max_int in Hr.
  destruct (Z.eq_dec (Int.wrap z) (- 2 ^ 63)) as [Hmin | Hmin].
  - rewrite Hmin. reflexivity.
  - rewrite !(wrap_id (- Int.wrap z)) by (unfold Int.min_int, Int.max_int; lia).
    rewrite Z.opp_involutive, (wrap_id (Int.wrap z)) by (unfold Int.min_int, Int.max_int; lia).
    destruct (Z.ltb_spec (- Int.wrap z) 0), (Z.ltb_spec (Int.wrap z) 0); lia.
Qed.

Lemma abs_sub_comm (x y : Z) : abs (Int.sub x y) = abs (Int.sub y x).
Proof.
  unfold Int.sub.
  rewrite <- (abs_neg (x - y)). unfold Int.neg.
  rewrite wrap_opp. do 2 f_equal. lia.
Qed.

(** Away from overflow [abs] of a difference is the distance. *)
Lemma abs_sub_exact (x y : Z) :
  Int.min_int < x - y <= Int.max_int -> abs (Int.sub x y) = Z.abs (x - y).
Proof.
  intros Hr. unfold abs, Int.sub, Int.neg.
  rewrite (wrap_id (x - y)) by lia.
  destruct (Z.ltb_spec (x - y) 0).
  - rewrite wrap_id by (unfold Int.min_int, Int.max_int in *; lia). lia.
  - lia.
Qed.

End IntFacts.

(** ** The hero table *)

Lemma Hero_schema_invalid : Hero_schema_valid = false.
Proof. vm_compute. reflexivity. Qed.

(** No field of [Deck] or [Hero] is called [HeroID]: every read comes back
    with the zero value. *)
Lemma First_fails (db : DB) (id : Z) : First db id = Hero_zero.
Proof. unfold First. rewrite Hero_schema_invalid. reflexivity. Qed.

(** Without a row the read gives the zero value on either path. *)
Lemma First_absent (db : DB) (id : Z) : db !! id = None -> First db id = Hero_zero.
Proof.
  intros Hnone. unfold First. rewrite Hnone.
  destruct Hero_schema_valid; reflexivity.
Qed.

Lemma updateCurHeroPt_absent (db : DB) (user : User) (newPt : Z) :
  db !! User_CurHeroID user = None -> updateCurHeroPt db user newPt = db.
Proof.
  intros Hnone. unfold updateCurHeroPt.
  rewrite (First_absent _ _ Hnone). reflexivity.
Qed.

Lemma getCurHeroPt_default (db : DB) (user : User) :
  getCurHeroPt db user = ELO_RATING_DEFAULT.
Proof. unfold getCurHeroPt. rewrite First_fails. reflexivity. Qed.

Lemma updateCurHeroPt_noop (db : DB) (user : User) (newPt : Z) :
  updateCurHeroPt db user newPt = db.
Proof. unfold updateCurHeroPt. rewrite First_fails. reflexivity. Qed.

(** The key invariant survives a rating update. *)
Lemma updateCurHeroPt_wf (db : DB) (user : User) (newPt : Z) :
  db_wf db -> db_wf (updateCurHeroPt db user newPt).
Proof. rewrite updateCurHeroPt_noop. trivial. Qed.

(** ** The rating update *)

Section RatingUpdate.

Context `{GoPlatform}.

(** [eloCal] reads the caller's rating, computes, and stores. *)
Lemma eloCal_newRating (db : DB) (curUser : User) (opponentPt result : Z) :
  eloCal db curUser opponentPt result =
  match actualScore_of result with
  | Some actualScore =>
      (updateCurHeroPt db curUser
         (newRating (getCurHeroPt db curUser) opponentPt actualScore), [])
  | None => (db, ["Invalid result"%string])
  end.
Proof. reflexivity. Qed.

Lemma actualScore_of_invalid (result : Z) :
  result <> ELO_RESULT_WIN -> result <> ELO_RESULT_LOSS -> result <> ELO_RESULT_TIE ->
  actualScore_of result = None.
Proof.
  unfold actualScore_of, ELO_RESULT_WIN, ELO_RESULT_LOSS, ELO_RESULT_TIE.
  intros Hw Hl Ht.
  destruct (Z.eqb_spec result 1); [lia |].
  destruct (Z.eqb_spec result 0); [lia |].
  destruct (Z.eqb_spec result (-1)); [lia | reflexivity].
Qed.

Lemma actualScore_of_valid (result : Z) :
  result = ELO_RESULT_WIN \/ result = ELO_RESULT_LOSS \/ result = ELO_RESULT_TIE ->
  exists actualScore, actualScore_of result = Some actualScore.
Proof.
  intros [-> | [-> | ->]]; eexists; reflexivity.
Qed.

(** C4: an outcome other than Win, Loss and Tie makes [eloCal] print
    "Invalid result" and return without writing: the table it leaves is
    the table it was given, so the rating read for the competitor is what
    it was. *)
Theorem eloCal_invalid_result (db : DB) (curUser : User) (opponentPt result : Z) :
  result <> ELO_RESULT_WIN -> result <> ELO_RESULT_LOSS -> result <> ELO_RESULT_TIE ->
  eloCal db curUser opponentPt result = (db, ["Invalid result"%string]) /\
  getCurHeroPt (eloCal db curUser opponentPt result).1 curUser = getCurHeroPt db curUser.
Proof.
  intros Hw Hl Ht.
  rewrite eloCal_newRating, (actualScore_of_invalid _ Hw Hl Ht).
  split; reflexivity.
Qed.

(** C10: when the table has no row for the competitor's current hero,
    [updateCurHeroPt] returns the table as it was, and so does [eloCal]
    for each of the three outcomes, printing nothing. *)
Theorem update_absent_hero_is_noop (db : DB) (user : User) :
  db !! User_CurHeroID user = None ->
  (forall newPt, updateCurHeroPt db user newPt = db) /\
  (forall opponentPt result,
      result = ELO_RESULT_WIN \/ result = ELO_RESULT_LOSS \/ result = ELO_RESULT_TIE ->
      eloCal db user opponentPt result = (db, [])).
Proof.
  intros Hnone. split.
  - intros newPt. exact (updateCurHeroPt_absent db user newPt Hnone).
  - intros opponentPt result Hvalid.
    destruct (actualScore_of_valid result Hvalid) as [score Hscore].
    rewrite eloCal_newRating, Hscore, updateCurHeroPt_absent by exact Hnone.
    reflexivity.
Qed.

End RatingUpdate.

(** C5, on four heroes stored with the ratings 2099, 2100, 2399 and 2400:
    [computeK] answers 36 for each of their users, as it does for every user
    over every table, since the rating it goes by is the 1500 of a failed
    read. *)
Theorem computeK_is_36_at_every_stored_rating :
  (forall db curUser, computeK db curUser = 36%float) /\
  stored_rating (sample_db [2099; 2100; 2399; 2400]) (sample_user 1) 2099 /\
  stored_rating (sample_db [2099; 2100; 2399; 2400]) (sample_user 2) 2100 /\
  stored_rating (sample_db [2099; 2100; 2399; 2400]) (sample_user 3) 2399 /\
  stored_rating (sample_db [2099; 2100; 2399; 2400]) (sample_user 4) 2400 /\
  computeK (sample_db [2099; 2100; 2399; 2400]) (sample_user 2) = 36%float /\
  computeK (sample_db [2099; 2100; 2399; 2400]) (sample_user 3) = 36%float /\
  computeK (sample_db [2099; 2100; 2399; 2400]) (sample_user 4) = 36%float.
Proof.
  assert (forall db curUser, computeK db curUser = 36%float) as Hk.
  { intros db curUser. unfold computeK. rewrite getCurHeroPt_default. reflexivity. }
  split; [exact Hk |].
  split; [exists (sample_hero 1 2099); split; [| split; [| split]]; reflexivity |].
  split; [exists (sample_hero 2 2100); split; [| split; [| split]]; reflexivity |].
  split; [exists (sample_hero 3 2399); split; [| split; [| split]]; reflexivity |].
  split; [exists (sample_hero 4 2400); split; [| split; [| split]]; reflexivity |].
  split; [apply Hk |]. split; apply Hk.
Qed.

(** C7: without a row for the competitor's current hero, [getCurHeroPt]
    answers 1500, and this is the rating [eloMatch], [computeK] and [eloCal]
    go on with. *)
Theorem getCurHeroPt_absent `{GoPlatform} (db : DB) (user : User) :
  db !! User_CurHeroID user = None ->
  getCurHeroPt db user = 1500 /\
  getCurHeroPt db user = ELO_RATING_DEFAULT /\
  (forall other allowedDiff,
      eloMatch db user other allowedDiff =
      (abs (Int.sub 1500 (getCurHeroPt db other)) <=? allowedDiff)) /\
  computeK db user = 36%float /\
  (forall opponentPt result actualScore,
      actualScore_of result = Some actualScore ->
      eloCal db user opponentPt result =
      (updateCurHeroPt db user (newRating 1500 opponentPt actualScore), [])).
Proof.
  intros Hnone.
  assert (getCurHeroPt db user = 1500) as Hpt.
  { unfold getCurHeroPt. rewrite (First_absent _ _ Hnone). reflexivity. }
  split; [exact Hpt |]. split; [exact Hpt |]. split; [| split].
  - intros other allowedDiff. unfold eloMatch. rewrite Hpt. reflexivity.
  - unfold computeK. rewrite Hpt. reflexivity.
  - intros opponentPt result actualScore Hscore.
    rewrite eloCal_newRating, Hscore, Hpt. reflexivity.
Qed.

(** C9: the compatibility test does not depend on which of the two
    competitors asks: it compares [abs] of the difference of the two
    ratings with the tolerance. *)
Theorem eloMatch_symmetric (db : DB) (u v : User) (d : Z) :
  eloMatch db u v d = eloMatch db v u d.
Proof.
  unfold eloMatch. rewrite IntFacts.abs_sub_comm. reflexivity.
Qed.

(** ** The scan *)

Section Scan.

Context (db : DB) (firstUser : User).

(** The loop stops at the first element of [rest] that passes [eloMatch]
    and removes it from [curQueue]; with none, [curQueue] is returned as it
    is. *)
Lemma rangeLoop_spec (curQueue rest : list User) (index : nat) :
  match rangeLoop db firstUser curQueue rest index with
  | (queue', Some (probe, partner)) =>
      probe = firstUser /\
      exists i : nat,
        rest !! i = Some partner /\
        eloMatch db firstUser partner (User_AllowedDiff firstUser) = true /\
        (forall (j : nat) u, (j < i)%nat -> rest !! j = Some u -> eloMatch db firstUser u (User_AllowedDiff firstUser) = false) /\
        queue' = take (index + i) curQueue ++ drop (S (index + i)) curQueue
  | (queue', None) =>
      queue' = curQueue /\ Forall (fun u => eloMatch db firstUser u (User_AllowedDiff firstUser) = false) rest
  end.
Proof.
  revert index. induction rest as [| matchedUser rest' IH]; intros index; simpl.
  - split; [reflexivity | constructor].
  - destruct (eloMatch db firstUser matchedUser (User_AllowedDiff firstUser)) eqn:Hm.
    + split; [reflexivity |]. exists 0%nat.
      rewrite Nat.add_0_r.
      split; [reflexivity |]. split; [exact Hm |]. split; [| reflexivity].
      intros j u Hj. lia.
    + specialize (IH (S index)).
      destruct (rangeLoop db firstUser curQueue rest' (S index)) as [queue' [[probe partner] |]].
      * destruct IH as [-> (i & Hi & Hc & Hfirst & ->)].
        split; [reflexivity |]. exists (S i).
        split; [exact Hi |]. split; [exact Hc |]. split.
        -- intros [| j] u Hj Hu; simpl in Hu.
           ++ injection Hu as <-. exact Hm.
           ++ apply (Hfirst j); [lia | exact Hu].
        -- replace (index + S i)%nat with (S index + i)%nat by lia. reflexivity.
      * destruct IH as [-> Hall]. split; [reflexivity |].
        constructor; [exact Hm | exact Hall].
Qed.

(** Within bounds [eloMatch] is the comparison of the distance between
    the two ratings with the tolerance. *)
Lemma eloMatch_within_tolerance (u : User) :
  rating_bounded db firstUser -> rating_bounded db u ->
  eloMatch db firstUser u (User_AllowedDiff firstUser) = true <-> within_tolerance db firstUser u.
Proof.
  unfold rating_bounded, within_tolerance, eloMatch.
  intros Hf Hu.
  rewrite IntFacts.abs_sub_exact
    by (unfold Int.min_int, Int.max_int;
        change (2 ^ 63) with (2 * 2 ^ 62); lia).
  apply Z.leb_le.
Qed.

End Scan.

(** ** One cycle *)

Section Cycle.

Context `{GoPlatform} (db : DB).

Lemma Pool_set_queue_same (curPool : MatchingPool) :
  Pool_set_queue curPool (MatchingQueue curPool) = curPool.
Proof. destruct curPool. reflexivity. Qed.

(** With fewer than two users queued a cycle changes nothing. *)
Lemma cycle_idle (curPool : MatchingPool) :
  (length (MatchingQueue curPool) < 2)%nat ->
  startMatching_cycle db curPool =
  {| cycle_pool := curPool; cycle_go := None; cycle_firstUser := None |}.
Proof.
  intros Hlen. unfold startMatching_cycle.
  destruct (Nat.leb_spec 2 (length (MatchingQueue curPool))); [lia |].
  rewrite Pool_set_queue_same. reflexivity.
Qed.

(** The shape of a cycle over two users or more. *)
Lemma cycle_scanning (curPool : MatchingPool) (firstUser : User) (rest : list User) :
  MatchingQueue curPool = firstUser :: rest -> rest <> [] ->
  startMatching_cycle db curPool =
  {| cycle_pool :=
       Pool_set_queue curPool (rangeLoop db firstUser rest rest 0).1;
     cycle_go := (rangeLoop db firstUser rest rest 0).2;
     cycle_firstUser :=
       Some (User_set_AllowedDiff firstUser
               (Int.add (User_AllowedDiff firstUser)
                        (allowedDiffStep (getCurHeroPt db firstUser)))) |}.
Proof.
  intros Hq Hne. unfold startMatching_cycle. rewrite Hq.
  destruct rest as [| second rest']; [done |].
  change (2 <=? length (firstUser :: second :: rest'))%nat with true. cbv iota.
  destruct (rangeLoop db firstUser (second :: rest') (second :: rest') 0) as [queue' started].
  reflexivity.
Qed.

(** X2: the queue after a cycle is the queue before it with elements taken
    out: no record in it is new or changed. *)
Lemma cycle_queue_sublist (curPool : MatchingPool) :
  sublist (MatchingQueue (cycle_pool (startMatching_cycle db curPool)))
          (MatchingQueue curPool).
Proof.
  destruct (MatchingQueue curPool) as [| firstUser rest] eqn:Hq.
  - rewrite cycle_idle by (rewrite Hq; simpl; lia). simpl. rewrite Hq. reflexivity.
  - destruct rest as [| second rest'].
    + rewrite cycle_idle by (rewrite Hq; simpl; lia). simpl. rewrite Hq. reflexivity.
    + rewrite (cycle_scanning _ _ _ Hq) by done.
      pose proof (rangeLoop_spec db firstUser (second :: rest') (second :: rest') 0) as Hspec.
      destruct (rangeLoop db firstUser (second :: rest') (second :: rest') 0)
        as [queue' [[probe partner] |]];
        cbn [cycle_pool Pool_set_queue MatchingQueue fst].
      * destruct Hspec as [_ (i & _ & _ & _ & ->)].
        rewrite Nat.add_0_l. apply sublist_cons.
        assert (sublist (take i (second :: rest') ++ drop (S i) (second :: rest'))
                        (take i (second :: rest') ++ drop i (second :: rest'))) as Hsub.
        { apply sublist_app; [reflexivity |].
          replace (S i) with (i + 1)%nat by lia.
          rewrite <- drop_drop. apply sublist_drop. }
        rewrite take_drop in Hsub. exact Hsub.
      * destruct Hspec as [-> _]. apply sublist_cons. reflexivity.
Qed.

End Cycle.

(** C1, on two users added to the third pool whose heroes are stored with
    the ratings 1500 and 1000, 500 apart, both with tolerance 0: both
    ratings are read as 1500, [eloMatch] accepts, and the cycle hands the
    two to [gameRoom] and writes back an empty queue.  The probe is not
    queued any more; the tolerance widened to 19 is its local copy's. *)
Theorem distant_ratings_are_matched `{GoPlatform} :
  sample_pool [1; 2] =
  (addUserToPoll (sample_user 2)
     (addUserToPoll (sample_user 1) (mkPool 1401 1600 [])).2).2 /\
  stored_rating (sample_db [1500; 1000]) (sample_user 1) 1500 /\
  stored_rating (sample_db [1500; 1000]) (sample_user 2) 1000 /\
  User_AllowedDiff (sample_user 1) = 0 /\
  getCurHeroPt (sample_db [1500; 1000]) (sample_user 1) = 1500 /\
  getCurHeroPt (sample_db [1500; 1000]) (sample_user 2) = 1500 /\
  startMatching_cycle (sample_db [1500; 1000]) (sample_pool [1; 2]) =
  {| cycle_pool := sample_pool [];
     cycle_go := Some (sample_user 1, sample_user 2);
     cycle_firstUser := Some (User_set_AllowedDiff (sample_user 1) 19) |}.
Proof.
  split; [reflexivity |].
  split; [exists (sample_hero 1 1500); split; [| split; [| split]]; reflexivity |].
  split; [exists (sample_hero 2 1000); split; [| split; [| split]]; reflexivity |].
  split; [reflexivity |].
  split; [apply getCurHeroPt_default |]. split; [apply getCurHeroPt_default |].
  vm_compute. reflexivity.
Qed.

(** What [gameRoom] passes to [eloCal], call by call. *)
Lemma gameRoom_calls `{GoPlatform} (db : DB) (user1 user2 : User) :
  room_calls (gameRoom db user1 user2) =
  [ mkEloCall user1 (getCurHeroPt db user2) ELO_RESULT_WIN;
    mkEloCall user2
      (getCurHeroPt
         (updateCurHeroPt db user1
            (newRating (getCurHeroPt db user1) (getCurHeroPt db user2) 1)) user1)
      ELO_RESULT_LOSS ].
Proof. reflexivity. Qed.


(** C8, on three users whose heroes are stored with the ratings 1500, 1000
    and 1500, all with tolerance 0: the probe is handed to [gameRoom] with
    the second user, whose stored rating is 500 away, and the third, whose
    stored rating is the probe's, stays queued. *)
Theorem first_queued_user_is_matched `{GoPlatform} :
  stored_rating (sample_db [1500; 1000; 1500]) (sample_user 1) 1500 /\
  stored_rating (sample_db [1500; 1000; 1500]) (sample_user 2) 1000 /\
  stored_rating (sample_db [1500; 1000; 1500]) (sample_user 3) 1500 /\
  User_AllowedDiff (sample_user 1) = 0 /\
  cycle_go (startMatching_cycle (sample_db [1500; 1000; 1500]) (sample_pool [1; 2; 3])) =
  Some (sample_user 1, sample_user 2) /\
  MatchingQueue
    (cycle_pool (startMatching_cycle (sample_db [1500; 1000; 1500])
                   (sample_pool [1; 2; 3]))) =
  [sample_user 3].
Proof.
  split; [exists (sample_hero 1 1500); split; [| split; [| split]]; reflexivity |].
  split; [exists (sample_hero 2 1000); split; [| split; [| split]]; reflexivity |].
  split; [exists (sample_hero 3 1500); split; [| split; [| split]]; reflexivity |].
  split; [reflexivity |].
  split; vm_compute; reflexivity.
Qed.

(** A pool that holds one user stays as it is, cycle after cycle. *)
Lemma startMatching_single `{GoPlatform} (n : nat) (db : DB) (curPool : MatchingPool) :
  (length (MatchingQueue curPool) < 2)%nat ->
  startMatching n db curPool = (curPool, []).
Proof.
  intros Hlen. induction n as [| n IH]; [reflexivity |].
  cbn [startMatching]. rewrite (cycle_idle db curPool Hlen).
  cbn [cycle_pool cycle_go]. rewrite IH. reflexivity.
Qed.

(** C3, on the two users of C1, whose stored ratings are 500 apart: the
    probe does not wait unmatched while its tolerance grows by
    19 = 28800 / 1500 a cycle; the first cycle hands it to [gameRoom] with
    tolerance 0, and every later cycle finds the queue empty. *)
Theorem probe_is_matched_at_tolerance_zero `{GoPlatform} (n : nat) :
  stored_rating (sample_db [1500; 1000]) (sample_user 1) 1500 /\
  stored_rating (sample_db [1500; 1000]) (sample_user 2) 1000 /\
  startMatching (S n) (sample_db [1500; 1000]) (sample_pool [1; 2]) =
  (sample_pool [], [(sample_user 1, sample_user 2)]) /\
  User_AllowedDiff (sample_user 1) = 0 /\
  allowedDiffStep 1500 = 19.
Proof.
  split; [exists (sample_hero 1 1500); split; [| split; [| split]]; reflexivity |].
  split; [exists (sample_hero 2 1000); split; [| split; [| split]]; reflexivity |].
  split; [| split; reflexivity].
  cbn [startMatching].
  replace (startMatching_cycle (sample_db [1500; 1000]) (sample_pool [1; 2]))
    with {| cycle_pool := sample_pool []; cycle_go := Some (sample_user 1, sample_user 2);
            cycle_firstUser := Some (User_set_AllowedDiff (sample_user 1) 19) |}
    by (vm_compute; reflexivity).
  cbn [cycle_pool cycle_go].
  rewrite startMatching_single by (simpl; lia).
  reflexivity.
Qed.

(** ** Floating point *)

Module FloatFacts.

Lemma all_range_spec (f : Z -> bool) (bits : nat) (base : Z) :
  all_range f bits base = true ->
  forall m, base <= m < base + 2 ^ Z.of_nat bits -> f m = true.
Proof.
  revert base. induction bits as [| k IH]; intros base Hall m Hm.
  - simpl in Hm. replace m with base by lia. exact Hall.
  - cbn [all_range] in Hall. apply andb_true_iff in Hall as [Hlow Hhigh].
    rewrite Nat2Z.inj_succ, Z.pow_succ_r in Hm by lia.
    destruct (Z.lt_ge_cases m (base + 2 ^ Z.of_nat k)).
    + apply (IH base Hlow). lia.
    + apply (IH _ Hhigh). lia.
Qed.

Lemma to_int_of_truncate `{GoPlatform} (x : float) (z : Z) :
  Float64.truncate x = Some z -> Int.in_range z = true -> Float64.to_int x = z.
Proof.
  intros Ht Hr. unfold Float64.to_int. rewrite Ht, Hr. reflexivity.
Qed.

End FloatFacts.

(** X3: for ratings from 1 to 65536 the tolerance step is the integer quotient
    of 28800 by the rating. *)
Lemma allowedDiffStep_floor `{GoPlatform} (pt : Z) :
  1 <= pt <= 65536 -> allowedDiffStep pt = 28800 / pt.
Proof.
  intros Hpt.
  assert (all_range (fun pt => match Float64.truncate (28800 / Float64.of_int pt)%float with
                               | Some z => (z =? 28800 / pt) && Int.in_range z
                               | None => false
                               end) 16 1 = true) as Hall
      by (vm_compute; reflexivity).
  pose proof (FloatFacts.all_range_spec _ _ _ Hall pt) as Hone. cbv beta in Hone.
  unfold allowedDiffStep.
  destruct (Float64.truncate (28800 / Float64.of_int pt)%float) as [z |] eqn:Ht.
  - assert ((z =? 28800 / pt) && Int.in_range z = true) as Hz.
    { apply Hone. change (2 ^ Z.of_nat 16) with 65536. lia. }
    apply andb_true_iff in Hz as [Hq Hr]. apply Z.eqb_eq in Hq. subst z.
    apply FloatFacts.to_int_of_truncate; assumption.
  - discriminate Hone. change (2 ^ Z.of_nat 16) with 65536. lia.
Qed.

(** ** A match and the table *)

(** 1500 + 36 * (1 - 0.5) and 1500 + 36 * (0 - 0.5), exactly. *)
Lemma newRating_winner `{GoPlatform} : newRating 1500 1500 1 = 1518.
Proof. vm_compute. reflexivity. Qed.

Lemma newRating_loser `{GoPlatform} : newRating 1500 1500 0 = 1482.
Proof. vm_compute. reflexivity. Qed.

Lemma gameRoom_db_unchanged `{GoPlatform} (db : DB) (user1 user2 : User) :
  room_db (gameRoom db user1 user2) = db.
Proof.
  unfold gameRoom. rewrite !eloCal_newRating.
  change (actualScore_of ELO_RESULT_WIN) with (Some 1%float).
  change (actualScore_of ELO_RESULT_LOSS) with (Some 0%float).
  cbv beta iota zeta. rewrite !updateCurHeroPt_noop. reflexivity.
Qed.

(** X4: whatever the table and the two users, [gameRoom] returns the
    table it was given, and both calls of [eloCal] receive 1500 as the
    rating of the opponent. *)
Theorem gameRoom_leaves_the_table `{GoPlatform} (db : DB) (user1 user2 : User) :
  room_db (gameRoom db user1 user2) = db /\
  call_opponentPt <$> room_calls (gameRoom db user1 user2) = [1500; 1500].
Proof.
  split; [apply gameRoom_db_unchanged |].
  rewrite gameRoom_calls. cbn [fmap list_fmap call_opponentPt].
  rewrite !getCurHeroPt_default. reflexivity.
Qed.

(** C6, on two heroes stored with the rating 1500: the two calls of
    [eloCal] compute 1518 for the winner and 1482 for the loser, and
    [updateCurHeroPt] writes neither: the table after the match is the table
    before it, and both stored ratings are still 1500. *)
Theorem gameRoom_stores_no_rating `{GoPlatform} :
  stored_rating (sample_db [1500; 1500]) (sample_user 1) 1500 /\
  stored_rating (sample_db [1500; 1500]) (sample_user 2) 1500 /\
  newRating 1500 1500 1 = 1518 /\
  newRating 1500 1500 0 = 1482 /\
  room_db (gameRoom (sample_db [1500; 1500]) (sample_user 1) (sample_user 2)) =
  sample_db [1500; 1500] /\
  stored_rating
    (room_db (gameRoom (sample_db [1500; 1500]) (sample_user 1) (sample_user 2)))
    (sample_user 1) 1500 /\
  stored_rating
    (room_db (gameRoom (sample_db [1500; 1500]) (sample_user 1) (sample_user 2)))
    (sample_user 2) 1500.
Proof.
  rewrite gameRoom_db_unchanged.
  assert (stored_rating (sample_db [1500; 1500]) (sample_user 1) 1500) as Hs1
      by (exists (sample_hero 1 1500); split; [| split; [| split]]; reflexivity).
  assert (stored_rating (sample_db [1500; 1500]) (sample_user 2) 1500) as Hs2
      by (exists (sample_hero 2 1500); split; [| split; [| split]]; reflexivity).
  split; [exact Hs1 |]. split; [exact Hs2 |].
  split; [apply newRating_winner |]. split; [apply newRating_loser |].
  split; [reflexivity |]. split; assumption.
Qed.

(** ** The theorems at sample inputs *)

(** Result 2 is no outcome: the call prints and leaves the table alone. *)
Lemma eloCal_invalid_result_witness :
  eloCal (H := sample_platform) (sample_db [1500; 1500]) (sample_user 1) 1500 2 =
  (sample_db [1500; 1500], ["Invalid result"%string]) /\
  getCurHeroPt
    (eloCal (H := sample_platform) (sample_db [1500; 1500]) (sample_user 1) 1500 2).1
    (sample_user 1) =
  getCurHeroPt (sample_db [1500; 1500]) (sample_user 1).
Proof.
  apply (eloCal_invalid_result (H := sample_platform));
    unfold ELO_RESULT_WIN, ELO_RESULT_LOSS, ELO_RESULT_TIE; lia.
Defined.

(** User 3 has no hero in a table of two. *)
Lemma update_absent_hero_is_noop_witness :
  (forall newPt,
      updateCurHeroPt (sample_db [1500; 1500]) (sample_user 3) newPt =
      sample_db [1500; 1500]) /\
  (forall opponentPt result,
      result = ELO_RESULT_WIN \/ result = ELO_RESULT_LOSS \/ result = ELO_RESULT_TIE ->
      eloCal (H := sample_platform) (sample_db [1500; 1500]) (sample_user 3)
             opponentPt result =
      (sample_db [1500; 1500], [])).
Proof.
  apply (update_absent_hero_is_noop (H := sample_platform)). reflexivity.
Defined.

Lemma getCurHeroPt_absent_witness :
  getCurHeroPt (sample_db [1200; 1300]) (sample_user 3) = 1500.
Proof.
  apply (getCurHeroPt_absent (H := sample_platform)). reflexivity.
Defined.

Lemma allowedDiffStep_floor_witness :
  allowedDiffStep (H := sample_platform) 1000 = 28800 / 1000.
Proof.
  apply (allowedDiffStep_floor (H := sample_platform)). lia.
Defined.

(** * Further properties *)

(** ** Reading and writing a rating *)

Lemma Hero_set_CurPt_same (hero : Hero) : Hero_set_CurPt hero (Hero_CurPt hero) = hero.
Proof. destruct hero. reflexivity. Qed.

Lemma Hero_set_CurPt_twice (hero : Hero) (a b : Z) :
  Hero_set_CurPt (Hero_set_CurPt hero a) b = Hero_set_CurPt hero b.
Proof. reflexivity. Qed.

(** X5: of two updates of one user's rating the second wins: the table is
    as if the first had not been made, whether the hero is stored or not. *)
Theorem updateCurHeroPt_last_write_wins (db : DB) (user : User) (a b : Z) :
  updateCurHeroPt (updateCurHeroPt db user a) user b = updateCurHeroPt db user b.
Proof.
  rewrite (updateCurHeroPt_noop db user a). reflexivity.
Qed.

Lemma only_CurPt_changed_refl (db : DB) : only_CurPt_changed db db.
Proof.
  intros k. destruct (db !! k) as [hero |]; constructor.
  exists (Hero_CurPt hero). symmetry. apply Hero_set_CurPt_same.
Qed.

(** What an update does to each row of a table with proper keys. *)
Lemma updateCurHeroPt_rows (db : DB) (user : User) (newPt : Z) :
  db_wf db ->
  only_CurPt_changed db (updateCurHeroPt db user newPt) /\
  (forall k, k <> User_CurHeroID user -> updateCurHeroPt db user newPt !! k = db !! k).
Proof.
  intros _. rewrite updateCurHeroPt_noop.
  split; [apply only_CurPt_changed_refl | reflexivity].
Qed.

Lemma only_CurPt_changed_trans (db1 db2 db3 : DB) :
  only_CurPt_changed db1 db2 -> only_CurPt_changed db2 db3 -> only_CurPt_changed db1 db3.
Proof.
  intros H12 H23 k. specialize (H12 k). specialize (H23 k).
  destruct H12 as [h1 h2 [a ->] |]; inversion H23 as [h2' h3 [b ->] |]; constructor.
  exists b. reflexivity.
Qed.

(** X6: whatever the table holds and whoever the user is, [getCurHeroPt]
    answers 1500 and [updateCurHeroPt] returns the table as it was: [Deck]
    has no field [HeroID] for the tag of [Hero.Decks], so no read of a hero
    succeeds and no write is reached. *)
Theorem hero_table_is_never_read_or_written (db : DB) (user : User) :
  Hero_schema_valid = false /\
  getCurHeroPt db user = 1500 /\
  (forall newPt, updateCurHeroPt db user newPt = db).
Proof.
  split; [| split].
  - apply Hero_schema_invalid.
  - apply getCurHeroPt_default.
  - intros newPt. apply updateCurHeroPt_noop.
Qed.

(** X8: a row whose [ID] is zero or negative counts as missing: the rating
    read is 1500 whatever the row says, and neither [updateCurHeroPt] nor
    [eloCal] writes. *)
Theorem nonpositive_hero_id_is_missing `{GoPlatform} (db : DB) (user : User) (hero : Hero) :
  db !! User_CurHeroID user = Some hero ->
  Hero_ID hero <= 0 ->
  getCurHeroPt db user = 1500 /\
  (forall newPt, updateCurHeroPt db user newPt = db) /\
  (forall opponentPt result, (eloCal db user opponentPt result).1 = db).
Proof.
  intros Hlook Hnpos.
  assert (Hero_ID (First db (User_CurHeroID user)) <= 0) as Hid.
  { unfold First. rewrite Hlook. destruct Hero_schema_valid; [exact Hnpos | reflexivity]. }
  assert (forall newPt, updateCurHeroPt db user newPt = db) as Hupd.
  { intros newPt. unfold updateCurHeroPt.
    destruct (Z.ltb_spec 0 (Hero_ID (First db (User_CurHeroID user)))); [lia | reflexivity]. }
  split; [| split; [exact Hupd |]].
  - unfold getCurHeroPt.
    destruct (Z.ltb_spec 0 (Hero_ID (First db (User_CurHeroID user)))); [lia | reflexivity].
  - intros opponentPt result. rewrite eloCal_newRating.
    destruct (actualScore_of result); [apply Hupd | reflexivity].
Qed.

(** ** What a match leaves of the table *)

Section Frame.

Context `{GoPlatform}.

Lemma eloCal_rows (db : DB) (curUser : User) (opponentPt result : Z) :
  db_wf db ->
  db_wf (eloCal db curUser opponentPt result).1 /\
  only_CurPt_changed db (eloCal db curUser opponentPt result).1 /\
  (forall k, k <> User_CurHeroID curUser ->
             (eloCal db curUser opponentPt result).1 !! k = db !! k).
Proof.
  intros Hwf. rewrite eloCal_newRating.
  destruct (actualScore_of result) as [actualScore |]; cbn [fst].
  - split; [apply updateCurHeroPt_wf; exact Hwf |].
    apply updateCurHeroPt_rows. exact Hwf.
  - split; [exact Hwf |]. split; [apply only_CurPt_changed_refl | reflexivity].
Qed.

Lemma gameRoom_db_eloCal (db : DB) (user1 user2 : User) :
  room_db (gameRoom db user1 user2) =
  (eloCal (eloCal db user1 (getCurHeroPt db user2) ELO_RESULT_WIN).1 user2
          (getCurHeroPt (eloCal db user1 (getCurHeroPt db user2) ELO_RESULT_WIN).1 user1)
          ELO_RESULT_LOSS).1.
Proof. reflexivity. Qed.

(** X7: over a table with proper keys [gameRoom] keeps the keys proper,
    keeps every row under its key with every column but [CurPt] as it was
    (the win and loss counters included), leaves the rows of heroes other
    than the two players' untouched, and prints nothing. *)
Theorem gameRoom_frame (db : DB) (user1 user2 : User) :
  db_wf db ->
  db_wf (room_db (gameRoom db user1 user2)) /\
  only_CurPt_changed db (room_db (gameRoom db user1 user2)) /\
  (forall k, k <> User_CurHeroID user1 -> k <> User_CurHeroID user2 ->
             room_db (gameRoom db user1 user2) !! k = db !! k) /\
  room_stdout (gameRoom db user1 user2) = [].
Proof.
  intros Hwf. rewrite gameRoom_db_eloCal.
  destruct (eloCal_rows db user1 (getCurHeroPt db user2) ELO_RESULT_WIN Hwf)
    as (Hwf1 & Hrows1 & Hframe1).
  set (db1 := (eloCal db user1 (getCurHeroPt db user2) ELO_RESULT_WIN).1) in *.
  destruct (eloCal_rows db1 user2 (getCurHeroPt db1 user1) ELO_RESULT_LOSS Hwf1)
    as (Hwf2 & Hrows2 & Hframe2).
  split; [exact Hwf2 |]. split; [| split].
  - exact (only_CurPt_changed_trans _ _ _ Hrows1 Hrows2).
  - intros k Hk1 Hk2. rewrite (Hframe2 k Hk2). exact (Hframe1 k Hk1).
  - reflexivity.
Qed.

End Frame.

(** ** [abs] and [eloMatch] at the ends of [int] *)

(** X9: on every [int] but the least, [abs] is the absolute value; the
    least [int] it returns as it is, a negative number. *)
Theorem abs_int (x : Z) :
  Int.min_int <= x <= Int.max_int ->
  (x <> Int.min_int -> abs x = Z.abs x /\ 0 <= abs x <= Int.max_int) /\
  (x = Int.min_int -> abs x = Int.min_int).
Proof.
  intros Hx. split.
  - intros Hne. unfold abs, Int.neg.
    destruct (Z.ltb_spec x 0).
    + rewrite IntFacts.wrap_id by (unfold Int.min_int, Int.max_int in *; lia).
      unfold Int.min_int, Int.max_int in *. lia.
    + unfold Int.min_int, Int.max_int in *. lia.
  - intros ->. reflexivity.
Qed.

(** X10: [eloMatch] does not tell two users from two others: whatever the
    table and the users, it accepts exactly when the tolerance is not
    negative. *)
Theorem eloMatch_sees_the_tolerance_only (db : DB) (u v : User) (d : Z) :
  eloMatch db u v d = (0 <=? d).
Proof.
  unfold eloMatch. rewrite !getCurHeroPt_default. reflexivity.
Qed.

(** ** A cycle as a search *)

Section Search.

Context `{GoPlatform} (db : DB).

Lemma rangeLoop_list_find (firstUser : User) (curQueue rest : list User) (index : nat) :
  rangeLoop db firstUser curQueue rest index =
  match list_find (fun u => eloMatch db firstUser u (User_AllowedDiff firstUser) = true) rest with
  | Some (i, partner) =>
      (take (index + i) curQueue ++ drop (S (index + i)) curQueue,
       Some (firstUser, partner))
  | None => (curQueue, None)
  end.
Proof.
  revert index. induction rest as [| matchedUser rest' IH]; intros index; [reflexivity |].
  cbn [rangeLoop list_find]. unfold decide, decide_rel.
  destruct (eloMatch db firstUser matchedUser (User_AllowedDiff firstUser)) eqn:Hm.
  - destruct (bool_eq_dec true true); [| done].
    cbn. rewrite Nat.add_0_r. reflexivity.
  - destruct (bool_eq_dec false true); [done |].
    rewrite IH.
    destruct (list_find _ rest') as [[i partner] |]; cbn; [| reflexivity].
    replace (index + S i)%nat with (S (index + i)) by lia. reflexivity.
Qed.

(** X11: a cycle over two users or more is a search for the first user
    behind the head that passes [eloMatch] against the head: when there is
    one, the two are handed to [gameRoom] and the queue keeps the others in
    order; when there is none, the queue keeps everyone but the head and
    nothing is started.  No assumption is made on the ratings. *)
Theorem cycle_is_first_match_search (curPool : MatchingPool) (firstUser : User)
    (rest : list User) :
  MatchingQueue curPool = firstUser :: rest ->
  rest <> [] ->
  match list_find (fun u => eloMatch db firstUser u (User_AllowedDiff firstUser) = true) rest with
  | Some (i, partner) =>
      MatchingQueue (cycle_pool (startMatching_cycle db curPool)) = delete i rest /\
      cycle_go (startMatching_cycle db curPool) = Some (firstUser, partner)
  | None =>
      MatchingQueue (cycle_pool (startMatching_cycle db curPool)) = rest /\
      cycle_go (startMatching_cycle db curPool) = None
  end.
Proof.
  intros Hq Hne. rewrite (cycle_scanning db _ _ _ Hq Hne).
  cbn [cycle_pool cycle_go Pool_set_queue MatchingQueue].
  rewrite rangeLoop_list_find.
  destruct (list_find _ rest) as [[i partner] |]; cbn [fst snd].
  - split; [| reflexivity]. rewrite Nat.add_0_l. symmetry. apply delete_take_drop.
  - split; reflexivity.
Qed.

(** What a cycle does to the length of the queue. *)
Lemma cycle_lengths (curPool : MatchingPool) :
  (length (MatchingQueue (cycle_pool (startMatching_cycle db curPool)))
   + 2 * length (option_list (cycle_go (startMatching_cycle db curPool)))
   <= length (MatchingQueue curPool))%nat /\
  ((2 <= length (MatchingQueue curPool))%nat ->
   (length (MatchingQueue (cycle_pool (startMatching_cycle db curPool)))
    < length (MatchingQueue curPool))%nat).
Proof.
  destruct (MatchingQueue curPool) as [| firstUser rest] eqn:Hq.
  - rewrite cycle_idle by (rewrite Hq; simpl; lia). cbn. rewrite Hq. simpl. lia.
  - destruct (decide (rest = [])) as [-> | Hne].
    + rewrite cycle_idle by (rewrite Hq; simpl; lia). cbn. rewrite Hq. simpl. lia.
    + rewrite (cycle_scanning db _ _ _ Hq Hne).
      cbn [cycle_pool cycle_go Pool_set_queue MatchingQueue].
      pose proof (rangeLoop_spec db firstUser rest rest 0) as Hspec.
      destruct (rangeLoop db firstUser rest rest 0) as [queue' [[probe partner] |]];
        cbn [fst snd option_list].
      * destruct Hspec as [_ (i & Hi & _ & _ & ->)].
        apply lookup_lt_Some in Hi.
        rewrite length_app, length_take, length_drop. simpl. lia.
      * destruct Hspec as [-> _]. simpl. lia.
Qed.

Lemma startMatching_succ (n : nat) (curPool : MatchingPool) :
  startMatching (S n) db curPool =
  ((startMatching n db (cycle_pool (startMatching_cycle db curPool))).1,
   option_list (cycle_go (startMatching_cycle db curPool)) ++
   (startMatching n db (cycle_pool (startMatching_cycle db curPool))).2).
Proof.
  cbn [startMatching].
  destruct (startMatching n db (cycle_pool (startMatching_cycle db curPool))). reflexivity.
Qed.

(** X12: without arrivals users only leave the queue: after any number of
    cycles the users still queued and the users handed to [gameRoom], two a
    pair, are no more than the users queued at the start; and each cycle over
    two users or more takes at least one out, so after [n] cycles at most
    one user, or the initial number less [n], is left. *)
Theorem startMatching_drains (n : nat) (curPool : MatchingPool) :
  (length (MatchingQueue (startMatching n db curPool).1)
   + 2 * length (startMatching n db curPool).2
   <= length (MatchingQueue curPool))%nat /\
  (length (MatchingQueue (startMatching n db curPool).1)
   <= Nat.max 1 (length (MatchingQueue curPool) - n))%nat.
Proof.
  revert curPool. induction n as [| n IH]; intros curPool.
  - cbn. lia.
  - rewrite startMatching_succ. cbn [fst snd].
    destruct (IH (cycle_pool (startMatching_cycle db curPool))) as [IHsum IHmax].
    destruct (cycle_lengths curPool) as [Hsum Hlt].
    rewrite length_app. split; [lia |].
    destruct (Nat.le_gt_cases 2 (length (MatchingQueue curPool))) as [Hge | Hsmall].
    + specialize (Hlt Hge). lia.
    + lia.
Qed.

End Search.

(** ** The pools the program can hold *)

Section Reachable.

Context `{GoPlatform}.

Lemma cycle_keeps_Forall (P : User -> Prop) (db : DB) (curPool : MatchingPool) :
  Forall P (MatchingQueue curPool) ->
  Forall P (MatchingQueue (cycle_pool (startMatching_cycle db curPool))).
Proof.
  intros Hall.
  destruct (MatchingQueue curPool) as [| firstUser rest] eqn:Hq.
  - rewrite cycle_idle by (rewrite Hq; simpl; lia). cbn. rewrite Hq. exact Hall.
  - destruct (decide (rest = [])) as [-> | Hne].
    + rewrite cycle_idle by (rewrite Hq; simpl; lia). cbn. rewrite Hq. exact Hall.
    + rewrite (cycle_scanning db _ _ _ Hq Hne).
      cbn [cycle_pool Pool_set_queue MatchingQueue].
      apply Forall_cons in Hall as [_ Hrest].
      pose proof (rangeLoop_spec db firstUser rest rest 0) as Hspec.
      destruct (rangeLoop db firstUser rest rest 0) as [queue' [[probe partner] |]];
        cbn [fst].
      * destruct Hspec as [_ (i & _ & _ & _ & ->)].
        apply Forall_app. split; [apply Forall_take | apply Forall_drop]; exact Hrest.
      * destruct Hspec as [-> _]. exact Hrest.
Qed.

Lemma reachable_tolerance_zero (pool : MatchingPool) :
  pool_reachable pool ->
  Forall (fun u => User_AllowedDiff u = 0) (MatchingQueue pool).
Proof.
  induction 1 as [pool Hinit | pool curUser _ IH | pool db _ IH].
  - unfold initMatchingPools in Hinit.
    repeat (apply elem_of_cons in Hinit as [-> | Hinit]; [constructor |]).
    apply elem_of_nil in Hinit. contradiction.
  - cbn. apply Forall_app. split; [exact IH |].
    constructor; [reflexivity | constructor].
  - apply cycle_keeps_Forall. exact IH.
Qed.

(** X1: in a pool the program can hold, a cycle over two users or more
    hands the head of the queue and the user right behind it to [gameRoom],
    whatever the table holds, and the queue keeps the others. *)
Theorem reachable_cycle_pairs_the_first_two (pool : MatchingPool) (db : DB)
    (first second : User) (rest : list User) :
  pool_reachable pool ->
  MatchingQueue pool = first :: second :: rest ->
  cycle_go (startMatching_cycle db pool) = Some (first, second) /\
  MatchingQueue (cycle_pool (startMatching_cycle db pool)) = rest.
Proof.
  intros Hreach Hq.
  pose proof (reachable_tolerance_zero pool Hreach) as Hzero.
  rewrite Hq in Hzero. apply Forall_cons in Hzero as [Hfirst _].
  rewrite (cycle_scanning db _ _ _ Hq) by discriminate.
  cbn [cycle_go cycle_pool Pool_set_queue MatchingQueue rangeLoop].
  assert (eloMatch db first second (User_AllowedDiff first) = true) as ->.
  { unfold eloMatch. rewrite !getCurHeroPt_default, Hfirst. reflexivity. }
  split; reflexivity.
Qed.

(** X13: in a pool the program can hold, every queued user has tolerance
    0, so the two users a cycle hands to [gameRoom] have the same rating
    (ratings within ±2^62). *)
Theorem reachable_pool_matches_equal_ratings (pool : MatchingPool) :
  pool_reachable pool ->
  Forall (fun u => User_AllowedDiff u = 0) (MatchingQueue pool) /\
  (forall db probe partner,
      cycle_go (startMatching_cycle db pool) = Some (probe, partner) ->
      rating_bounded db probe -> rating_bounded db partner ->
      getCurHeroPt db probe = getCurHeroPt db partner).
Proof.
  intros Hreach. pose proof (reachable_tolerance_zero pool Hreach) as Hzero.
  split; [exact Hzero |].
  intros db probe partner Hgo Hbp Hbm.
  destruct (MatchingQueue pool) as [| firstUser rest] eqn:Hq.
  - rewrite cycle_idle in Hgo by (rewrite Hq; simpl; lia). discriminate.
  - destruct (decide (rest = [])) as [-> | Hne].
    + rewrite cycle_idle in Hgo by (rewrite Hq; simpl; lia). discriminate.
    + rewrite (cycle_scanning db _ _ _ Hq Hne) in Hgo. cbn [cycle_go] in Hgo.
      pose proof (rangeLoop_spec db firstUser rest rest 0) as Hspec.
      destruct (rangeLoop db firstUser rest rest 0) as [queue' [[probe' partner'] |]];
        cbn [snd] in Hgo; [| discriminate].
      injection Hgo as -> ->.
      destruct Hspec as [-> (i & _ & Hmatch & _)].
      apply Forall_cons in Hzero as [Hfirst _].
      apply (eloMatch_within_tolerance db firstUser partner Hbp Hbm) in Hmatch.
      unfold within_tolerance in Hmatch. rewrite Hfirst in Hmatch. lia.
Qed.

End Reachable.

(** ** The data a run starts from *)

(** X15: whatever the user, [createDefaultHeroes] gives ten heroes with
    ten different names, all the user's, locked, at level 1, with no win and
    no loss, without a key yet, and rated 1500, the rating [getCurHeroPt]
    gives a user without hero. *)
Theorem createDefaultHeroes_initial (userID : Z) :
  length (createDefaultHeroes userID) = 10%nat /\
  NoDup (Hero_Name <$> createDefaultHeroes userID) /\
  Forall (fun hero =>
            Hero_ID hero = 0 /\ Hero_UserID hero = userID /\
            Hero_IsUnlocked hero = false /\ Hero_Level hero = 1 /\
            Hero_CurWin hero = 0 /\ Hero_CurLose hero = 0 /\
            Hero_CurPt hero = ELO_RATING_DEFAULT)
         (createDefaultHeroes userID).
Proof.
  split; [reflexivity |]. split.
  - apply (bool_decide_unpack _). vm_compute. reflexivity.
  - repeat constructor.
Qed.

(** X16: the bands of the initial pools share no rating and leave no gap:
    a rating from 1000 to 1600 lies in the band of exactly one pool, any
    other rating in none; and the pools start empty. *)
Theorem initMatchingPools_bands (r : Z) :
  length (List.filter (fun pool => in_band pool r) initMatchingPools) =
  (if (1000 <=? r) && (r <=? 1600) then 1%nat else 0%nat) /\
  Forall (fun pool => MatchingQueue pool = []) initMatchingPools.
Proof.
  split; [| repeat constructor].
  unfold initMatchingPools, in_band. cbn [List.filter minPt maxPt].
  destruct (Z.leb_spec 1000 r), (Z.leb_spec r 1200), (Z.leb_spec 1201 r),
    (Z.leb_spec r 1400), (Z.leb_spec 1401 r), (Z.leb_spec r 1600);
    cbn; first [reflexivity | lia].
Qed.

(** X17: [addUserToPoll] does not look for the user in the queue.  A user
    added twice to an empty pool is matched with itself by the next cycle,
    whatever its rating: both copies are handed to [gameRoom] and the queue
    is empty again. *)
Theorem duplicate_user_matches_itself `{GoPlatform}
    (db : DB) (pool : MatchingPool) (curUser : User) :
  MatchingQueue pool = [] ->
  cycle_go (startMatching_cycle db
              (addUserToPoll curUser (addUserToPoll curUser pool).2).2) =
  Some (User_set_AllowedDiff curUser 0, User_set_AllowedDiff curUser 0) /\
  MatchingQueue
    (cycle_pool (startMatching_cycle db
                   (addUserToPoll curUser (addUserToPoll curUser pool).2).2)) = [].
Proof.
  intros Hq.
  assert (MatchingQueue (addUserToPoll curUser (addUserToPoll curUser pool).2).2 =
          User_set_AllowedDiff curUser 0 :: [User_set_AllowedDiff curUser 0]) as Hqueue.
  { cbn. rewrite Hq. reflexivity. }
  rewrite (cycle_scanning db _ _ _ Hqueue) by discriminate.
  cbn [cycle_go cycle_pool Pool_set_queue MatchingQueue rangeLoop].
  assert (eloMatch db (User_set_AllowedDiff curUser 0) (User_set_AllowedDiff curUser 0)
                   (User_AllowedDiff (User_set_AllowedDiff curUser 0)) = true) as ->.
  { unfold eloMatch, Int.sub. rewrite Z.sub_diag. reflexivity. }
  split; reflexivity.
Qed.

(** ** The further theorems at sample inputs *)

Lemma sample_db_from_wf (pts : list Z) (id : Z) : db_wf (sample_db_from id pts).
Proof.
  revert id. induction pts as [| pt pts IH]; intros id k hero Hlook; cbn in Hlook.
  - rewrite lookup_empty in Hlook. discriminate.
  - apply lookup_insert_Some in Hlook as [[<- <-] | [_ Hlook]].
    + reflexivity.
    + exact (IH _ _ _ Hlook).
Qed.

Lemma sample_db_wf (pts : list Z) : db_wf (sample_db pts).
Proof. apply sample_db_from_wf. Qed.

(** A match between users 1 and 2 of three leaves hero 3 alone. *)
Lemma gameRoom_frame_witness :
  db_wf (room_db (gameRoom (H := sample_platform) (sample_db [1500; 1500; 1300])
                           (sample_user 1) (sample_user 2))) /\
  only_CurPt_changed
    (sample_db [1500; 1500; 1300])
    (room_db (gameRoom (H := sample_platform) (sample_db [1500; 1500; 1300])
                       (sample_user 1) (sample_user 2))) /\
  (forall k, k <> User_CurHeroID (sample_user 1) -> k <> User_CurHeroID (sample_user 2) ->
             room_db (gameRoom (H := sample_platform) (sample_db [1500; 1500; 1300])
                               (sample_user 1) (sample_user 2)) !! k =
             sample_db [1500; 1500; 1300] !! k) /\
  room_stdout (gameRoom (H := sample_platform) (sample_db [1500; 1500; 1300])
                        (sample_user 1) (sample_user 2)) = [].
Proof.
  apply (gameRoom_frame (H := sample_platform)). apply sample_db_wf.
Defined.

(** A row stored under key 0, rated 1700: the user reads 1500. *)
Lemma nonpositive_hero_id_is_missing_witness :
  getCurHeroPt (<[0 := sample_hero 0 1700]> ∅) (sample_user 0) = 1500 /\
  (forall newPt,
      updateCurHeroPt (<[0 := sample_hero 0 1700]> ∅) (sample_user 0) newPt =
      <[0 := sample_hero 0 1700]> ∅) /\
  (forall opponentPt result,
      (eloCal (H := sample_platform) (<[0 := sample_hero 0 1700]> ∅) (sample_user 0)
              opponentPt result).1 =
      <[0 := sample_hero 0 1700]> ∅).
Proof.
  apply (nonpositive_hero_id_is_missing (H := sample_platform) _ _ (sample_hero 0 1700)).
  - reflexivity.
  - discriminate.
Defined.

Lemma abs_int_witness :
  abs (-500) = Z.abs (-500) /\ 0 <= abs (-500) <= Int.max_int.
Proof.
  apply (abs_int (-500)).
  - split; discriminate.
  - discriminate.
Defined.

(** Users whose heroes are stored with 1500, 1000 and 1500: the search
    stops at the first user behind the head. *)
Lemma cycle_is_first_match_search_witness :
  MatchingQueue
    (cycle_pool (startMatching_cycle (H := sample_platform)
                   (sample_db [1500; 1000; 1500]) (sample_pool [1; 2; 3]))) =
  [sample_user 3] /\
  cycle_go (startMatching_cycle (H := sample_platform)
              (sample_db [1500; 1000; 1500]) (sample_pool [1; 2; 3])) =
  Some (sample_user 1, sample_user 2).
Proof.
  exact (cycle_is_first_match_search (H := sample_platform)
           (sample_db [1500; 1000; 1500]) (sample_pool [1; 2; 3])
           (sample_user 1) [sample_user 2; sample_user 3]
           eq_refl ltac:(discriminate)).
Defined.

(** Three users added to the third initial pool, over heroes stored with
    1500, 1000 and 1500. *)
Lemma reachable_cycle_pairs_the_first_two_witness :
  cycle_go (startMatching_cycle (H := sample_platform) (sample_db [1500; 1000; 1500])
              (addUserToPoll (sample_user 3)
                 (addUserToPoll (sample_user 2)
                    (addUserToPoll (sample_user 1) (mkPool 1401 1600 [])).2).2).2) =
  Some (sample_user 1, sample_user 2) /\
  MatchingQueue
    (cycle_pool (startMatching_cycle (H := sample_platform) (sample_db [1500; 1000; 1500])
                   (addUserToPoll (sample_user 3)
                      (addUserToPoll (sample_user 2)
                         (addUserToPoll (sample_user 1) (mkPool 1401 1600 [])).2).2).2)) =
  [sample_user 3].
Proof.
  apply (reachable_cycle_pairs_the_first_two (H := sample_platform)).
  - do 3 apply reachable_add. apply reachable_init.
    unfold initMatchingPools. do 2 (apply elem_of_cons; right).
    apply elem_of_cons. left. reflexivity.
  - reflexivity.
Defined.

(** Two users added to the third initial pool. *)
Lemma reachable_pool_matches_equal_ratings_witness :
  Forall (fun u => User_AllowedDiff u = 0)
         (MatchingQueue
            (addUserToPoll (sample_user 2)
               (addUserToPoll (sample_user 1) (mkPool 1401 1600 [])).2).2) /\
  (forall db probe partner,
      cycle_go (startMatching_cycle (H := sample_platform) db
                  (addUserToPoll (sample_user 2)
                     (addUserToPoll (sample_user 1) (mkPool 1401 1600 [])).2).2) =
      Some (probe, partner) ->
      rating_bounded db probe -> rating_bounded db partner ->
      getCurHeroPt db probe = getCurHeroPt db partner).
Proof.
  apply (reachable_pool_matches_equal_ratings (H := sample_platform)).
  do 2 apply reachable_add. apply reachable_init.
  unfold initMatchingPools. do 2 (apply elem_of_cons; right).
  apply elem_of_cons. left. reflexivity.
Defined.

Lemma duplicate_user_matches_itself_witness :
  cycle_go (startMatching_cycle (H := sample_platform) (sample_db [1500])
              (addUserToPoll (sample_user 1)
                 (addUserToPoll (sample_user 1) (mkPool 1401 1600 [])).2).2) =
  Some (User_set_AllowedDiff (sample_user 1) 0, User_set_AllowedDiff (sample_user 1) 0) /\
  MatchingQueue
    (cycle_pool (startMatching_cycle (H := sample_platform) (sample_db [1500])
                   (addUserToPoll (sample_user 1)
                      (addUserToPoll (sample_user 1) (mkPool 1401 1600 [])).2).2)) = [].
Proof.
  apply (duplicate_user_matches_itself (H := sample_platform)). reflexivity.
Defined.
